(** * Transient balance equations of a stirred mixing vessel

    A shallow embedding of [transientBalanceEquation.py]: the derivative
    function [vessel], the boundary-input schedules, the stepping loop that
    chains the integrator's last state, and the construction of the saved
    table.

    Numbers are binary64 values (Rocq's primitive [float], the format of
    Python's [float] and of numpy's [float64]); Python exceptions are the
    [Raise] results of a small state-and-error monad; numpy arrays are lists
    read with [!!] and written with [<[ _ := _ ]>], the out-of-range cases
    written out. *)

From Stdlib Require Import ZArith Lia Floats Ascii String DecimalString.
From Stdlib Require Uint63.
From stdpp Require Import base option list.

Set Default Proof Using "Type".
Set Warnings "-inexact-float".
Local Open Scope float_scope.

(** ** Python values: exceptions and results *)

Module Py.

Inductive exn : Type :=
| IndexError
| ZeroDivisionError
| ValueError.

Inductive result (A : Type) : Type :=
| Ok (a : A)
| Raise (e : exn).

Arguments Ok {A} a.
Arguments Raise {A} e.

Definition bind {A B : Type} (r : result A) (k : A -> result B) : result B :=
  match r with
  | Ok a => k a
  | Raise e => Raise e
  end.

(** [l[i]] for a non-negative index: [IndexError] past the end. *)
Definition getitem {A : Type} (l : list A) (i : nat) : result A :=
  match l !! i with
  | Some a => Ok a
  | None => Raise IndexError
  end.

(** [l[-1]]: the last element, [IndexError] on an empty sequence. *)
Definition getitem_last {A : Type} (l : list A) : result A :=
  match last l with
  | Some a => Ok a
  | None => Raise IndexError
  end.

(** The [i]-th entry of a returned sequence, when there is one. *)
Definition component {A : Type} (i : nat) (r : result (list A)) : option A :=
  match r with
  | Ok l => l !! i
  | Raise _ => None
  end.

End Py.

Import Py.

#[global] Instance result_bind : MBind result := fun _ _ k r => Py.bind r k.
#[global] Instance result_ret : MRet result := fun _ a => Ok a.

(** ** Binary64 arithmetic as the interpreter performs it *)

(** The same arithmetic is reached through two kinds of scalars.  A Python
    [float] raises [ZeroDivisionError] when the divisor compares equal to
    zero; a numpy [float64] (what [odeint] hands to the callback, and what
    indexing a schedule array yields) returns the IEEE quotient, an infinity
    or a NaN, with a warning only. *)
Inductive scalar_kind : Type :=
| PyFloat
| NpFloat64.

Definition truediv (k : scalar_kind) (a b : float) : result float :=
  match k with
  | PyFloat => if (b =? 0) then Raise ZeroDivisionError else Ok (a / b)
  | NpFloat64 => Ok (a / b)
  end.

(** ** The vessel model *)

(** [vessel(x, t, q, qf, caf, tf)].  The time argument [t] is rebound to
    [x[2]] before it is ever read. *)
Definition vessel (k : scalar_kind) (x : list float) (t q qf caf tf : float)
  : result (list float) :=
  v ← getitem x 0 ;
  ca ← getitem x 1 ;
  t ← getitem x 2 ;
  let rA := 0.0 in
  let dVdt := qf - q in
  a ← truediv k (qf * caf - q * ca) v ;
  b ← truediv k (ca * dVdt) v ;
  let dCadt := a - rA - b in
  c ← truediv k (qf * tf - q * t) v ;
  d ← truediv k (t * dVdt) v ;
  let dTdt := c - d in
  Ok [dVdt; dCadt; dTdt].

(** The balance equations as the design document writes them, for a state
    [(V, Ca, T)]. *)
Module Balance.

Definition rA : float := 0.

Definition dVdt (q qf : float) : float := qf - q.

Definition dCadt (V Ca q qf caf : float) : float :=
  (qf * caf - q * Ca) / V - rA - Ca * dVdt q qf / V.

Definition dTdt (V T q qf tf : float) : float :=
  (qf * tf - q * T) / V - T * dVdt q qf / V.

Definition triple (V Ca T q qf caf tf : float) : list float :=
  [dVdt q qf; dCadt V Ca q qf caf; dTdt V T q qf tf].

(** The same triple, read off the first three entries of a state. *)
Definition triple_of (x : list float) (q qf caf tf : float) : list float :=
  match x with
  | V :: Ca :: T :: _ => triple V Ca T q qf caf tf
  | _ => []
  end.

End Balance.

(** ** numpy arrays of float64 *)

Module Np.

(** [np.ones(n)] *)
Definition ones (n : nat) : list float := replicate n 1.

(** [a * c], elementwise *)
Definition scale (a : list float) (c : float) : list float :=
  (fun x => x * c) <$> a.

(** [a[k:] = c]: the slice is empty when [k] is past the end. *)
Definition assign_from (k : nat) (c : float) (a : list float) : list float :=
  take k a ++ replicate (length a - k) c.

(** [a[i] = v] for a non-negative index: [IndexError] past the end. *)
Definition setitem (a : list float) (i : nat) (v : float) : result (list float) :=
  if decide (i < length a) then Ok (<[i := v]> a) else Raise IndexError.

Definition of_nat (i : nat) : float := of_uint63 (Uint63.of_Z (Z.of_nat i)).

(** [np.linspace(start, stop, num)] with the default [endpoint=True], after
    numpy's implementation: [arange(num) * step + start], the last entry
    then set to [stop]. *)
Definition linspace (start stop : float) (num : nat) : list float :=
  let div := (num - 1)%nat in
  let delta := stop - start in
  let y := of_nat <$> seq 0 num in
  let y :=
    if (0 <? div)%nat then
      let step := delta / of_nat div in
      if (step =? 0) then (fun x => x / of_nat div * delta) <$> y
      else (fun x => x * step) <$> y
    else (fun x => x * delta) <$> y in
  let y := (fun x => x + start) <$> y in
  if (1 <? num)%nat then <[(num - 1)%nat := stop]> y else y.

(** [np.vstack] of one-dimensional arrays: they become the rows of a
    matrix, and must all have the length of the first. *)
Definition vstack (rows : list (list float)) : result (list (list float)) :=
  match rows with
  | [] => Raise ValueError
  | r :: rs =>
      if forallb (fun r' => (length r' =? length r)%nat) rs
      then Ok rows else Raise ValueError
  end.

(** The transpose of a matrix whose rows have length [n]. *)
Fixpoint transpose (n : nat) (rows : list (list float)) : list (list float) :=
  match rows with
  | [] => replicate n []
  | r :: rs => zip_with cons r (transpose n rs)
  end.

(** [data.T] *)
Definition T (data : list (list float)) : list (list float) :=
  match data with
  | [] => []
  | r :: _ => transpose (length r) data
  end.

(** [delimiter.join(fields)] *)
Fixpoint join (delimiter : string) (fields : list string) : string :=
  match fields with
  | [] => EmptyString
  | [f] => f
  | f :: fs => (f ++ delimiter ++ join delimiter fs)%string
  end.

(** The lines [np.savetxt(_, data, delimiter=_)] writes, in order: one per
    row, its entries formatted by [fmt] (numpy's ['%.18e']) and joined by
    the delimiter; the default header is empty, so no line precedes them. *)
Definition savetxt (fmt : float -> string) (delimiter : string)
    (data : list (list float)) : list string :=
  (fun row => join delimiter (fmt <$> row)) <$> data.

End Np.

(** ** The number format of the saved file *)

(** [np.savetxt] formats every entry with ['%.18e'], C's scientific notation
    with 18 decimals: the exact binary value rounded to 19 significant
    decimal digits, ties to even. *)
Module Printf.

Definition decimal (n : Z) : string := NilZero.string_of_uint (N.to_uint (Z.to_N n)).

(** Whether [10^j <= num/den], for positive [num] and [den]. *)
Definition pow10_le (j : Z) (num den : Z) : bool :=
  if (0 <=? j)%Z then (10 ^ j * den <=? num)%Z else (den <=? num * 10 ^ (- j))%Z.

(** The decimal exponent of [num/den]: the largest [j] with
    [10^j <= num/den], searched upwards from a [j] below it (the binary
    exponent times [log10 2], less one, is at most three short). *)
Fixpoint exponent10 (fuel : nat) (j : Z) (num den : Z) : Z :=
  match fuel with
  | O => j
  | S fuel' =>
      if pow10_le (j + 1) num den then exponent10 fuel' (j + 1) num den else j
  end.

(** [num/den * 10^p] rounded to the nearest integer, ties to even. *)
Definition scaled (p : Z) (num den : Z) : Z :=
  let '(n, d) := if (0 <=? p)%Z then (num * 10 ^ p, den)%Z
                 else (num, den * 10 ^ (- p))%Z in
  let (quo, r) := Z.div_eucl n d in
  match (2 * r ?= d)%Z with
  | Lt => quo
  | Gt => (quo + 1)%Z
  | Eq => if Z.even quo then quo else (quo + 1)%Z
  end.

Definition point_after_first (digits : string) : string :=
  match digits with
  | EmptyString => EmptyString
  | String c rest => String c ("." ++ rest)
  end.

Definition exponent_field (k : Z) : string :=
  ((if (k <? 0)%Z then "-" else "+")
   ++ (if (Z.abs k <? 10)%Z then "0" else "") ++ decimal (Z.abs k))%string.

Definition sign_field (s : bool) : string := if s then "-" else "".

(** ['%.18e' % x] *)
Definition e18 (x : float) : string :=
  match Prim2SF x with
  | S754_nan => "nan"
  | S754_infinity s => (sign_field s ++ "inf")%string
  | S754_zero s => (sign_field s ++ "0.000000000000000000e+00")%string
  | S754_finite s m e =>
      let '(num, den) := if (0 <=? e)%Z then (Z.pos m * 2 ^ e, 1)%Z
                         else (Z.pos m, 2 ^ (- e))%Z in
      let b := (Z.log2 num - Z.log2 den)%Z in
      let k := exponent10 8 ((b - 1) * 30103 / 100000 - 1) num den in
      let d := scaled (18 - k) num den in
      let '(d, k) := if (d =? 10 ^ 19)%Z then (10 ^ 18, k + 1)%Z else (d, k) in
      (sign_field s ++ point_after_first (decimal d) ++ "e" ++ exponent_field k)%string
  end.

End Printf.

(** How a reader of the file cuts a line into columns: [line.split(c)]. *)
Fixpoint split_on (c : ascii) (line : string) : list string :=
  match line with
  | EmptyString => [EmptyString]
  | String a rest =>
      if Ascii.eqb a c then EmptyString :: split_on c rest
      else match split_on c rest with
           | [] => [String a EmptyString]
           | f :: fs => String a f :: fs
           end
  end.

Fixpoint occurs (c : ascii) (s : string) : bool :=
  match s with
  | EmptyString => false
  | String a rest => Ascii.eqb a c || occurs c rest
  end.

(** ** The integrator *)

(** [scipy.integrate.odeint] is not part of this program: it is taken as a
    parameter.  It receives the callback, the initial state, the time points
    and the extra arguments handed on to the callback, and returns one row
    per time point (or raises). *)
Definition callback : Type :=
  list float -> float -> float -> float -> float -> float -> result (list float).

Definition integrator : Type :=
  callback -> list float -> list float -> float * float * float * float ->
  result (list (list float)).

(** A one-step explicit Euler integrator over a two-point interval, used to
    run the driver on concrete grids. *)
Definition euler : integrator := fun f y ts args =>
  let '(q, qf, caf, tf) := args in
  match ts with
  | [t0; t1] =>
      d ← f y t0 q qf caf tf ;
      Ok [y; zip_with (fun yi di => yi + (t1 - t0) * di) y d]
  | _ => Raise ValueError
  end.

(** The Euler step again, as an integrator that gives up: it raises when
    the state it reached is not finite.  It runs the driver's error path. *)
Definition checked_euler : integrator := fun f y ts args =>
  rows ← euler f y ts args ;
  row ← getitem_last rows ;
  if forallb is_finite row then Ok rows else Raise ValueError.

(** ** The stepping loop *)

(** The module-level variables the loop writes: the three result arrays and
    the running initial condition [y0].  [calls] is instrumentation: the
    number of times the integrator has been invoked so far. *)
Record store : Type := Store {
  V : list float;
  Ca : list float;
  T : list float;
  y0 : list float;
  calls : nat;
}.

(** State and exceptions: a statement transforms the store and either
    completes with a value or raises. *)
Definition M (A : Type) : Type := store -> store * result A.

#[global] Instance M_ret : MRet M := fun _ a s => (s, Ok a).
#[global] Instance M_bind : MBind M := fun _ _ k m s =>
  match m s with
  | (s', Ok a) => k a s'
  | (s', Raise e) => (s', Raise e)
  end.

Definition lift {A : Type} (r : result A) : M A := fun s => (s, r).
Definition read {A : Type} (f : store -> A) : M A := fun s => (s, Ok (f s)).
Definition write (f : store -> store) : M unit := fun s => (f s, Ok tt).

Definition set_V (v : list float) (s : store) : store :=
  Store v (Ca s) (T s) (y0 s) (calls s).
Definition set_Ca (v : list float) (s : store) : store :=
  Store (V s) v (T s) (y0 s) (calls s).
Definition set_T (v : list float) (s : store) : store :=
  Store (V s) (Ca s) v (y0 s) (calls s).
Definition set_y0 (v : list float) (s : store) : store :=
  Store (V s) (Ca s) (T s) v (calls s).
Definition count_call (s : store) : store :=
  Store (V s) (Ca s) (T s) (y0 s) (S (calls s)).

(** [for i in indices: body(i)] *)
Fixpoint for_each (body : nat -> M unit) (indices : list nat) : M unit :=
  match indices with
  | [] => mret tt
  | i :: rest => _ ← body i ; for_each body rest
  end.

Section Driver.

Variable odeint : integrator.
Variable fmt : float -> string.

(** The schedules and the grid are read, never written. *)
Variables t q qf Caf Tf : list float.

(** One pass of the loop body, for index [i]. *)
Definition body (i : nat) : M unit :=
  qi ← lift (getitem q i) ;
  qfi ← lift (getitem qf i) ;
  cafi ← lift (getitem Caf i) ;
  tfi ← lift (getitem Tf i) ;
  let inputs := (qi, qfi, cafi, tfi) in
  ti ← lift (getitem t i) ;
  ti1 ← lift (getitem t (i + 1)) ;
  let ts := [ti; ti1] in
  y_init ← read y0 ;
  _ ← write count_call ;
  y ← lift (odeint (vessel NpFloat64) y_init ts inputs) ;
  row ← lift (getitem_last y) ;
  v ← lift (getitem row 0) ;
  arr ← read V ;
  arr ← lift (Np.setitem arr (i + 1) v) ;
  _ ← write (set_V arr) ;
  row ← lift (getitem_last y) ;
  c ← lift (getitem row 1) ;
  arr ← read Ca ;
  arr ← lift (Np.setitem arr (i + 1) c) ;
  _ ← write (set_Ca arr) ;
  row ← lift (getitem_last y) ;
  temp ← lift (getitem row 2) ;
  arr ← read T ;
  arr ← lift (Np.setitem arr (i + 1) temp) ;
  _ ← write (set_T arr) ;
  row ← lift (getitem_last y) ;
  write (set_y0 row).

(** The storage for the results and the first initial condition. *)
Definition initial_store (V0 Ca0 T0 : float) : store :=
  {| V := Np.scale (Np.ones (length t)) V0;
     Ca := Np.scale (Np.ones (length t)) Ca0;
     T := Np.scale (Np.ones (length t)) T0;
     y0 := [V0; Ca0; T0];
     calls := 0 |}.

(** [for i in range(len(t)-1): ...] *)
Definition loop : M unit := for_each body (seq 0 (length t - 1)).

Definition simulate (V0 Ca0 T0 : float) : store * result unit :=
  loop (initial_store V0 Ca0 T0).

(** [data = np.vstack((t, qf, q, Tf, Caf, V, Ca, T)); data = data.T] *)
Definition table : M (list (list float)) :=
  v ← read V ;
  ca ← read Ca ;
  temp ← read T ;
  data ← lift (Np.vstack [t; qf; q; Tf; Caf; v; ca; temp]) ;
  mret (Np.T data).

(** The whole run: the loop, then the table and the lines saved to
    [data_tBE.txt]. *)
Definition run (V0 Ca0 T0 : float) : store * result (list string) :=
  (_ ← loop ;
   data ← table ;
   mret (Np.savetxt fmt "," data)) (initial_store V0 Ca0 T0).

(** The state [(V[i], Ca[i], T[i])] recorded at grid index [i]. *)
Definition trajectory (s : store) (i : nat) : option (list float) :=
  v ← V s !! i ;
  c ← Ca s !! i ;
  temp ← T s !! i ;
  Some [v; c; temp].

(** Row [i] of the table as the file format fixes it: time, inlet flow,
    outlet flow, feed temperature, feed concentration, volume,
    concentration, temperature, each formatted. *)
Definition expected_columns (s : store) (i : nat) : option (list string) :=
  time ← t !! i ;
  inlet_flow ← qf !! i ;
  outlet_flow ← q !! i ;
  feed_temperature ← Tf !! i ;
  feed_concentration ← Caf !! i ;
  volume ← V s !! i ;
  concentration ← Ca s !! i ;
  temperature ← T s !! i ;
  Some (fmt <$> [time; inlet_flow; outlet_flow; feed_temperature;
                 feed_concentration; volume; concentration; temperature]).

(** What the driver expects of the integrator on a two-point interval and
    a three-entry state: a sub-trajectory whose last row is again a state. *)
Definition well_shaped : Prop :=
  forall y t0 t1 inputs, length y = 3%nat ->
    exists rows row,
      odeint (vessel NpFloat64) y [t0; t1] inputs = Ok (rows ++ [row])
      /\ length row = 3%nat.

(** Index [i+1] of the trajectory holds the last row of the integrator's
    sub-trajectory over [[t[i], t[i+1]]], started from index [i], with the
    inputs sampled at [i]. *)
Definition chained (s : store) (i : nat) : Prop :=
  exists ti ti1 qi qfi cafi tfi start sub final,
    t !! i = Some ti /\ t !! (i + 1)%nat = Some ti1 /\
    q !! i = Some qi /\ qf !! i = Some qfi /\
    Caf !! i = Some cafi /\ Tf !! i = Some tfi /\
    trajectory s i = Some start /\
    odeint (vessel NpFloat64) start [ti; ti1] (qi, qfi, cafi, tfi) = Ok sub /\
    last sub = Some final /\
    trajectory s (i + 1)%nat = Some final.

(** The state of the loop on entering pass [k]. *)
Definition entering (k : nat) (s : store) : Prop :=
  length (V s) = length t /\ length (Ca s) = length t /\
  length (T s) = length t /\
  trajectory s k = Some (y0 s) /\ calls s = k.

End Driver.


(** [s'] has the arrays of [s] up to index [n], at the same lengths. *)
Definition keeps (n : nat) (s s' : store) : Prop :=
  length (V s') = length (V s) /\ length (Ca s') = length (Ca s) /\
  length (T s') = length (T s) /\
  forall j, (j <= n)%nat ->
    V s' !! j = V s !! j /\ Ca s' !! j = Ca s !! j /\ T s' !! j = T s !! j.

(** ** The composed run: the constants of the script *)

Module Script.

Definition V0 : float := 1.0.
Definition Ca0 : float := 0.0.
Definition T0 : float := 350.0.

Definition t : list float := Np.linspace 0 10 100.

Definition qf : list float :=
  Np.assign_from 50 5.1 (Np.scale (Np.ones (length t)) 5.2).

Definition q : list float := Np.scale (Np.ones (length t)) 5.0.

Definition Caf : list float :=
  Np.assign_from 30 0.5 (Np.scale (Np.ones (length t)) 1.0).

Definition Tf : list float :=
  Np.assign_from 70 325.0 (Np.scale (Np.ones (length t)) 300.0).

Definition main (odeint : integrator) (fmt : float -> string)
  : store * result (list string) :=
  run odeint fmt t q qf Caf Tf V0 Ca0 T0.

End Script.

(** ** The properties asked of the derivative function *)

(** Entry [i] of the result is there and compares equal to zero. *)
Definition is_zero_at (i : nat) (r : result (list float)) : Prop :=
  exists d, component i r = Some d /\ is_zero d = true.

(** What the steady-state property asks of one evaluation: with [qf = q]
    the first derivative is zero, and with [caf = Ca] and [tf = T] besides,
    so are the other two. *)
Definition steady_state_property
    (k : scalar_kind) (V Ca T t q qf caf tf : float) : Prop :=
  (V =? 0) = false ->
  let r := vessel k [V; Ca; T] t q qf caf tf in
  (qf = q -> is_zero_at 0 r) /\
  (qf = q -> caf = Ca -> tf = T ->
   is_zero_at 0 r /\ is_zero_at 1 r /\ is_zero_at 2 r).

(** The evaluation raises, or returns some non-finite derivative. *)
Definition fails_or_non_finite (r : result (list float)) : Prop :=
  match r with
  | Raise _ => True
  | Ok ds => exists i d, ds !! i = Some d /\ is_finite d = false
  end.

(** What a guard on the volume would give: every evaluation at [V <= 0]
    fails so. *)
Definition nonpositive_volume_property
    (k : scalar_kind) (V Ca T t q qf caf tf : float) : Prop :=
  (V <=? 0) = true ->
  fails_or_non_finite (vessel k [V; Ca; T] t q qf caf tf).

(** The finite values of the format, on its specification side. *)
Definition SF_finite (x : spec_float) : bool :=
  match x with
  | S754_zero _ | S754_finite _ _ _ => true
  | _ => false
  end.

(** * Properties *)

(** ** Facts of binary64 arithmetic *)

Module F64.

Lemma Prim2SF_zero : Prim2SF 0 = S754_zero false.
Proof. reflexivity. Qed.

Lemma Prim2SF_one : Prim2SF 1 = S754_finite false 4503599627370496 (-52).
Proof. reflexivity. Qed.

Lemma Prim2SF_infinity : Prim2SF infinity = S754_infinity false.
Proof. reflexivity. Qed.

Lemma SFeqb_finite_refl s m e :
  SFeqb (S754_finite s m e) (S754_finite s m e) = true.
Proof.
  unfold SFeqb, SFcompare.
  rewrite Z.compare_refl, Pos.compare_cont_refl. now destruct s.
Qed.

Lemma is_nan_spec x :
  is_nan x = match Prim2SF x with S754_nan => true | _ => false end.
Proof.
  unfold is_nan. rewrite FloatAxioms.eqb_spec.
  destruct (Prim2SF x) as [[]|[]| |s m e]; try reflexivity.
  now rewrite SFeqb_finite_refl.
Qed.

Lemma is_infinity_spec x :
  is_infinity x = match Prim2SF x with S754_infinity _ => true | _ => false end.
Proof.
  unfold is_infinity. rewrite FloatAxioms.eqb_spec, abs_spec, Prim2SF_infinity.
  now destruct (Prim2SF x) as [[]|[]| |s m e].
Qed.

Lemma is_zero_spec x :
  is_zero x = match Prim2SF x with S754_zero _ => true | _ => false end.
Proof.
  unfold is_zero. rewrite FloatAxioms.eqb_spec.
  change (Prim2SF PrimFloat.zero) with (S754_zero false).
  now destruct (Prim2SF x) as [[]|[]| |[] m e].
Qed.

Lemma is_finite_spec x : is_finite x = SF_finite (Prim2SF x).
Proof.
  unfold is_finite. rewrite is_nan_spec, is_infinity_spec.
  now destruct (Prim2SF x) as [[]|[]| |s m e].
Qed.

(** Case analysis on the classes of the operands of one operation. *)
Ltac by_class :=
  rewrite ?is_finite_spec, ?is_zero_spec, ?is_nan_spec,
    ?sub_spec, ?mul_spec, ?div_spec;
  repeat match goal with
    | |- context [Prim2SF ?x] =>
        is_var x; destruct (Prim2SF x) as [[]|[]| |[] ? ?]
    end;
  cbn; try discriminate; try reflexivity; auto.

(** Subtracting the literal [0.0] changes nothing, zero signs and NaN
    included. *)
Lemma sub_zero_r x : x - 0 = x.
Proof.
  apply Prim2SF_inj. rewrite sub_spec, Prim2SF_zero.
  now destruct (Prim2SF x) as [[]|[]| |[] m e].
Qed.

Lemma sub_diag x : is_finite x = true -> x - x = 0.
Proof.
  rewrite is_finite_spec. intros H. apply Prim2SF_inj.
  rewrite sub_spec, Prim2SF_zero.
  destruct (Prim2SF x) as [[]|[]| |s m e]; try discriminate; try reflexivity.
  unfold SF64sub, SFsub. now rewrite Z.sub_diag.
Qed.

Lemma SFmul_one_l x :
  valid_binary x = true ->
  SF64mul (S754_finite false 4503599627370496 (-52)) x = x.
Proof.
  destruct x as [s|s| |s m e]; try reflexivity.
  unfold valid_binary, bounded, canonical_mantissa.
  intros [Hc He]%andb_prop.
  apply Z.eqb_eq in Hc.
  unfold SF64mul, SFmul. cbn [xorb].
  unfold binary_round_aux.
  set (m' := Pos.mul _ m).
  assert (Hd : Zdigits2 (Z.pos m') = (Z.pos (digits2_pos m) + 52)%Z).
  { unfold m'. simpl. rewrite Pos.mul_1_l, !Pos2Z.inj_succ. lia. }
  assert (Hshift : SpecFloat.iter_pos shr_1 52 (Build_shr_record (Z.pos m') false false)
                   = Build_shr_record (Z.pos m) false false) by reflexivity.
  unfold shr_fexp at 1. rewrite Hd.
  replace (Z.pos (digits2_pos m) + 52 + (-52 + e))%Z
    with (Z.pos (digits2_pos m) + e)%Z by lia.
  rewrite Hc.
  replace (e - (-52 + e))%Z with 52%Z by lia.
  unfold shr_record_of_loc, shr. rewrite Hshift.
  cbn [shr_m loc_of_shr_record round_nearest_even].
  unfold shr_fexp. cbn [Zdigits2].
  replace (-52 + e + 52)%Z with e by lia.
  rewrite Hc, Z.sub_diag. cbn [shr shr_record_of_loc shr_m].
  now rewrite He.
Qed.

(** [np.ones(n) * c] stores [c] itself. *)
Lemma mul_one_l x : 1 * x = x.
Proof.
  apply Prim2SF_inj. rewrite mul_spec, Prim2SF_one.
  apply SFmul_one_l, Prim2SF_valid.
Qed.

Lemma mul_finite_inv x y :
  is_finite (x * y) = true -> is_finite x = true /\ is_finite y = true.
Proof. by_class. Qed.

Lemma mul_zero_r x z :
  is_finite x = true -> is_zero z = true -> is_zero (x * z) = true.
Proof. by_class. Qed.

Lemma zero_div a v :
  is_zero a = true -> is_nan v = false -> is_zero v = false ->
  is_zero (a / v) = true.
Proof. by_class. Qed.

Lemma zero_sub_zero a b :
  is_zero a = true -> is_zero b = true -> is_zero (a - b) = true.
Proof. by_class. Qed.

Lemma div_zero_not_finite a v : is_zero v = true -> is_finite (a / v) = false.
Proof. by_class. Qed.

Lemma sub_not_finite_l a b : is_finite a = false -> is_finite (a - b) = false.
Proof. by_class. Qed.

Lemma ltb_zero_neq x : (x <? 0) = true -> (x =? 0) = false.
Proof.
  rewrite ltb_spec, FloatAxioms.eqb_spec, Prim2SF_zero.
  now destruct (Prim2SF x) as [[]|[]| |[] m e].
Qed.

End F64.

(** ** The derivative function *)

Section Vessel.

Import F64.

Example vessel_script_start :
  vessel NpFloat64 [1.0; 0.0; 350.0] 0 5.0 5.2 1.0 300.0
  = Ok [0.20000000000000018; 5.2000000000000002; -260.00000000000006].
Proof. vm_compute. reflexivity. Qed.

(** Off a zero volume no division raises, whichever kind of scalar. *)
Lemma truediv_nonzero k a v : (v =? 0) = false -> truediv k a v = Ok (a / v).
Proof. intros H. destruct k; cbn; [now rewrite H | reflexivity]. Qed.

Lemma vessel_nonzero k V Ca T t q qf caf tf :
  (V =? 0) = false ->
  vessel k [V; Ca; T] t q qf caf tf = Ok (Balance.triple V Ca T q qf caf tf).
Proof.
  intros H. unfold vessel. cbn.
  rewrite !(truediv_nonzero k _ V H). reflexivity.
Qed.

Lemma vessel_numpy V Ca T t q qf caf tf :
  vessel NpFloat64 [V; Ca; T] t q qf caf tf
  = Ok (Balance.triple V Ca T q qf caf tf).
Proof. reflexivity. Qed.

Lemma vessel_python_zero V Ca T t q qf caf tf :
  (V =? 0) = true ->
  vessel PyFloat [V; Ca; T] t q qf caf tf = Raise ZeroDivisionError.
Proof. intros H. unfold vessel. cbn. now rewrite H. Qed.

(** With no reaction the two balances are one function. *)
Lemma dCadt_dTdt V x q qf f : Balance.dCadt V x q qf f = Balance.dTdt V x q qf f.
Proof.
  unfold Balance.dCadt, Balance.dTdt, Balance.rA. now rewrite sub_zero_r.
Qed.

(** The shape shared by both balances at a steady state: the two flow
    terms cancel and the volume-change term vanishes. *)
Lemma steady_balance_zero V x q :
  (V =? 0) = false -> is_nan V = false -> is_finite (q * x) = true ->
  is_zero ((q * x - q * x) / V - x * (q - q) / V) = true.
Proof.
  intros HV Hnan Hfin.
  destruct (mul_finite_inv _ _ Hfin) as [Hq Hx].
  rewrite (sub_diag _ Hfin), (sub_diag _ Hq).
  apply zero_sub_zero; apply zero_div; auto.
  now apply mul_zero_r.
Qed.

Lemma vessel_numpy_zero_non_finite V Ca T t q qf caf tf :
  (V =? 0) = true ->
  exists d1 d2 d3,
    vessel NpFloat64 [V; Ca; T] t q qf caf tf = Ok [d1; d2; d3]
    /\ is_finite d2 = false /\ is_finite d3 = false.
Proof.
  intros H. rewrite vessel_numpy. do 3 eexists. split; [reflexivity|].
  unfold Balance.dCadt, Balance.dTdt.
  split; repeat apply sub_not_finite_l; now apply div_zero_not_finite.
Qed.

(** C1: for every state [(V, Ca, T)] with [V <> 0], every time argument and
    all boundary inputs, [vessel] returns exactly the triple of the balance
    equations: [qf - q], then [(qf*caf - q*Ca)/V - rA - Ca*dVdt/V] with
    [rA = 0], then [(qf*tf - q*T)/V - T*dVdt/V]. *)
Theorem vessel_returns_balance_triple k V Ca T t q qf caf tf :
  (V =? 0) = false ->
  vessel k [V; Ca; T] t q qf caf tf
  = Ok [qf - q;
        (qf * caf - q * Ca) / V - 0 - Ca * (qf - q) / V;
        (qf * tf - q * T) / V - T * (qf - q) / V].
Proof. intros H. now rewrite vessel_nonzero. Qed.

Lemma vessel_returns_balance_triple_witness :
  (1 =? 0) = false /\
  vessel PyFloat [1; 0; 350] 0 5 5.2 1 300
  = Ok [5.2 - 5;
        (5.2 * 1 - 5 * 0) / 1 - 0 - 0 * (5.2 - 5) / 1;
        (5.2 * 300 - 5 * 350) / 1 - 350 * (5.2 - 5) / 1].
Proof.
  split; [reflexivity|].
  apply (vessel_returns_balance_triple PyFloat 1 0 350 0 5 5.2 1 300).
  reflexivity.
Defined.

(** C9: the result of [vessel] does not depend on its time argument: at
    any two times, the same state and inputs give identical results. *)
Theorem vessel_ignores_time k x t1 t2 q qf caf tf :
  vessel k x t1 q qf caf tf = vessel k x t2 q qf caf tf.
Proof.
  unfold vessel.
  (* the name [t] is bound anew by the lookup of [x[2]]: neither side
     mentions its time argument any more *)
  reflexivity.
Qed.

(** C10: with the reaction rate 0, the species balance and the energy
    balance are the same function of their pair of inputs: for [V <> 0]
    and all flows, the concentration derivative computed from [(Ca, caf)]
    equals the temperature derivative computed from [(T, tf)] whenever
    [Ca = T] and [caf = tf], whatever the other state entry and feed. *)
Theorem species_balance_is_energy_balance
    k V Ca T' Ca' T t t' q qf caf tf' caf' tf :
  (V =? 0) = false -> Ca = T -> caf = tf ->
  exists d,
    component 1 (vessel k [V; Ca; T'] t q qf caf tf') = Some d /\
    component 2 (vessel k [V; Ca'; T] t' q qf caf' tf) = Some d.
Proof.
  intros H -> ->. rewrite !vessel_nonzero by done. cbn.
  eexists. split; [|reflexivity]. f_equal. apply dCadt_dTdt.
Qed.

Lemma species_balance_is_energy_balance_witness :
  exists d,
    component 1 (vessel PyFloat [2; 300; 7] 0 5 5.2 310 9) = Some d /\
    component 2 (vessel PyFloat [2; 8; 300] 1 5 5.2 11 310) = Some d.
Proof.
  apply (species_balance_is_energy_balance PyFloat 2 300 7 8 300 0 1 5 5.2 310 9 11 310);
    reflexivity.
Defined.

(** C4, as the code has it: for [V <> 0], if [qf = q] is finite the first
    derivative is zero; if moreover [caf = Ca] and [tf = T], the volume is
    not a NaN and the products [q*Ca] and [q*T] are finite (no overflow),
    all three derivatives are zero. *)
Theorem steady_state_zero_derivatives k V Ca T t q qf caf tf :
  (V =? 0) = false ->
  let r := vessel k [V; Ca; T] t q qf caf tf in
  (qf = q -> is_finite q = true -> is_zero_at 0 r) /\
  (qf = q -> caf = Ca -> tf = T ->
   is_nan V = false -> is_finite (q * Ca) = true -> is_finite (q * T) = true ->
   is_zero_at 0 r /\ is_zero_at 1 r /\ is_zero_at 2 r).
Proof.
  intros HV r. unfold r. rewrite vessel_nonzero by done.
  unfold is_zero_at, Balance.triple. cbn. split.
  - intros -> Hq. eexists. split; [reflexivity|].
    now rewrite sub_diag.
  - intros -> -> -> Hnan HCa HT.
    destruct (mul_finite_inv _ _ HCa) as [Hq _].
    repeat split; eexists; (split; [reflexivity|]).
    + now rewrite sub_diag.
    + rewrite sub_zero_r. now apply steady_balance_zero.
    + now apply steady_balance_zero.
Qed.

Lemma steady_state_zero_derivatives_witness :
  (2 =? 0) = false /\
  let r := vessel PyFloat [2; 1; 300] 0 5 5 1 300 in
  is_zero_at 0 r /\ is_zero_at 1 r /\ is_zero_at 2 r.
Proof.
  split; [reflexivity|].
  apply (steady_state_zero_derivatives PyFloat 2 1 300 0 5 5 1 300); reflexivity.
Defined.

(** C4 as stated fails where a product overflows: with
    [qf = q = caf = Ca = 1e200] the flow terms are both [+inf] and their
    difference is a NaN.  It fails as well with infinite equal flows
    ([inf - inf] is a NaN) and with a NaN volume, which is not equal to 0. *)
Lemma steady_state_overflow_counterexample :
  ~ steady_state_property NpFloat64 1 1e200 300 0 1e200 1e200 1e200 300
  /\ ~ steady_state_property NpFloat64 1 0 300 0 infinity infinity 0 300
  /\ ~ steady_state_property NpFloat64 nan 1 300 0 5 5 1 300.
Proof.
  repeat split; intros H; destruct (H eq_refl) as [H1 H2].
  - destruct (H2 eq_refl eq_refl eq_refl) as (_ & (d & Hd & Hz) & _).
    vm_compute in Hd. injection Hd as <-. vm_compute in Hz. discriminate.
  - destruct (H1 eq_refl) as (d & Hd & Hz).
    vm_compute in Hd. injection Hd as <-. vm_compute in Hz. discriminate.
  - destruct (H2 eq_refl eq_refl eq_refl) as (_ & (d & Hd & Hz) & _).
    vm_compute in Hd. injection Hd as <-. vm_compute in Hz. discriminate.
Qed.

(** C5, as the code has it: at [V = 0] (either zero) the evaluation raises
    [ZeroDivisionError] when the scalars are Python floats, and returns a
    triple whose concentration and temperature derivatives are not finite
    when they are numpy scalars; at [V < 0] nothing guards it and nothing is
    raised, under either kind: it returns the balance formulas evaluated at
    that volume, as at any other non-zero volume. *)
Theorem zero_volume_fails_negative_evaluates k V Ca T t q qf caf tf :
  ((V =? 0) = true ->
   match k with
   | PyFloat =>
       vessel k [V; Ca; T] t q qf caf tf = Raise ZeroDivisionError
   | NpFloat64 =>
       exists d1 d2 d3,
         vessel k [V; Ca; T] t q qf caf tf = Ok [d1; d2; d3]
         /\ is_finite d2 = false /\ is_finite d3 = false
   end) /\
  ((V <? 0) = true ->
   vessel k [V; Ca; T] t q qf caf tf
   = Ok [qf - q;
         (qf * caf - q * Ca) / V - 0 - Ca * (qf - q) / V;
         (qf * tf - q * T) / V - T * (qf - q) / V]).
Proof.
  split; intros H.
  - destruct k.
    + now apply vessel_python_zero.
    + now apply vessel_numpy_zero_non_finite.
  - rewrite vessel_nonzero by now apply ltb_zero_neq. reflexivity.
Qed.

Lemma zero_volume_fails_negative_evaluates_witness :
  vessel PyFloat [0; 0; 350] 0 5 5.2 1 300 = Raise ZeroDivisionError
  /\ (exists d1 d2 d3,
        vessel NpFloat64 [-0; 0; 350] 0 5 5.2 1 300 = Ok [d1; d2; d3]
        /\ is_finite d2 = false /\ is_finite d3 = false)
  /\ vessel PyFloat [-1; 0; 350] 0 5 5.2 1 300
     = Ok [5.2 - 5;
           (5.2 * 1 - 5 * 0) / (-1) - 0 - 0 * (5.2 - 5) / (-1);
           (5.2 * 300 - 5 * 350) / (-1) - 350 * (5.2 - 5) / (-1)].
Proof.
  split; [|split].
  - apply (zero_volume_fails_negative_evaluates PyFloat 0 0 350 0 5 5.2 1 300).
    reflexivity.
  - apply (zero_volume_fails_negative_evaluates NpFloat64 (-0) 0 350 0 5 5.2 1 300).
    reflexivity.
  - apply (zero_volume_fails_negative_evaluates PyFloat (-1) 0 350 0 5 5.2 1 300).
    reflexivity.
Defined.

(** C5 as stated fails at every ordinary negative volume: at [V = -1] the
    evaluation returns three finite numbers, under either kind of scalar. *)
Lemma negative_volume_counterexample :
  ~ nonpositive_volume_property PyFloat (-1) 0 350 0 5 5.2 1 300 /\
  ~ nonpositive_volume_property NpFloat64 (-1) 0 350 0 5 5.2 1 300.
Proof.
  split; intros H; destruct (H eq_refl) as (i & d & Hd & Hfin);
    vm_compute in Hd;
    destruct i as [|[|[|i]]]; try discriminate;
    injection Hd as <-; vm_compute in Hfin; discriminate.
Qed.

End Vessel.

(** ** The stepping loop *)

Section Loop.

Local Open Scope nat_scope.

Context (odeint : integrator) (t q qf Caf Tf : list float).

Local Abbreviation pass := (body odeint t q qf Caf Tf).

Lemma getitem_Some {A : Type} (l : list A) i a : l !! i = Some a -> getitem l i = Ok a.
Proof. unfold getitem. now intros ->. Qed.

Lemma getitem_last_snoc {A : Type} (l : list A) a : getitem_last (l ++ [a]) = Ok a.
Proof. unfold getitem_last. now rewrite last_snoc. Qed.

Lemma setitem_lt a i v : i < length a -> Np.setitem a i v = Ok (<[i := v]> a).
Proof. intros H. unfold Np.setitem. now rewrite decide_True. Qed.

(** One pass that finds its inputs and a well-shaped integrator result
    stores the last row at index [i+1] and keeps it as the next start. *)
Lemma body_ok i s qi qfi cafi tfi ti ti1 rows a b c :
  q !! i = Some qi -> qf !! i = Some qfi ->
  Caf !! i = Some cafi -> Tf !! i = Some tfi ->
  t !! i = Some ti -> t !! (i + 1) = Some ti1 ->
  odeint (vessel NpFloat64) (y0 s) [ti; ti1] (qi, qfi, cafi, tfi)
  = Ok (rows ++ [[a; b; c]]) ->
  i + 1 < length (V s) -> i + 1 < length (Ca s) -> i + 1 < length (T s) ->
  pass i s
  = ({| V := <[i + 1 := a]> (V s);
        Ca := <[i + 1 := b]> (Ca s);
        T := <[i + 1 := c]> (T s);
        y0 := [a; b; c];
        calls := S (calls s) |}, Ok tt).
Proof.
  intros Hq Hqf HCaf HTf Ht Ht1 Hode HV HCa HT.
  unfold body.
  rewrite (getitem_Some _ _ _ Hq), (getitem_Some _ _ _ Hqf),
    (getitem_Some _ _ _ HCaf), (getitem_Some _ _ _ HTf),
    (getitem_Some _ _ _ Ht), (getitem_Some _ _ _ Ht1).
  unfold mbind, M_bind, lift, read, write. cbn -[vessel].
  rewrite Hode, !getitem_last_snoc. cbn.
  rewrite (setitem_lt _ _ _ HV), (setitem_lt _ _ _ HCa), (setitem_lt _ _ _ HT).
  reflexivity.
Qed.

Lemma setitem_Ok a i v a' :
  Np.setitem a i v = Ok a' -> i < length a /\ a' = <[i := v]> a.
Proof. unfold Np.setitem. case_decide; naive_solver. Qed.

Lemma keeps_refl n s : keeps n s s.
Proof. unfold keeps. naive_solver. Qed.

Lemma keeps_trans n s1 s2 s3 : keeps n s1 s2 -> keeps n s2 s3 -> keeps n s1 s3.
Proof.
  intros (HV & HCa & HT & H12) (HV' & HCa' & HT' & H23).
  repeat split; try congruence;
    destruct (H12 j) as (? & ? & ?); destruct (H23 j) as (? & ? & ?);
    auto; congruence.
Qed.

Lemma keeps_weaken n m s s' : n <= m -> keeps m s s' -> keeps n s s'.
Proof.
  intros Hle (HV & HCa & HT & H). repeat split; auto; apply H; lia.
Qed.

(** Whatever its outcome, a pass writes the result arrays at index [i+1]
    only, and never resizes them. *)
Lemma body_keeps i s s' r : pass i s = (s', r) -> keeps i s s'.
Proof.
  intros H.
  unfold body, mbind, M_bind, lift, read, write in H.
  cbn -[vessel] in H.
  repeat match type of H with
    | context [match ?x with Ok _ => _ | Raise _ => _ end] =>
        destruct x eqn:?; cbn -[vessel] in H
    end;
    injection H as <- <-;
    repeat match goal with
      | E : Np.setitem _ _ _ = Ok _ |- _ =>
          apply setitem_Ok in E; destruct E as [? ->]
      end;
    unfold keeps; cbn; rewrite ?length_insert;
    repeat split; auto; try (apply list_lookup_insert_ne; lia).
Qed.

Lemma for_each_keeps n : forall a s s' r,
  for_each pass (seq a n) s = (s', r) -> keeps a s s'.
Proof.
  induction n as [|n IH]; intros a s s' r H; cbn in H.
  - injection H as <- <-. apply keeps_refl.
  - unfold mbind, M_bind in H.
    destruct (pass a s) as [s1 [[]|e]] eqn:Hb.
    + apply body_keeps in Hb. apply IH in H.
      eapply keeps_trans; [exact Hb|]. eapply keeps_weaken; [|exact H]. lia.
    + injection H as <- <-. now apply body_keeps in Hb.
Qed.

Local Abbreviation linked := (chained odeint t q qf Caf Tf).
Local Abbreviation starts := (entering t).

Lemma keeps_trajectory n s s' j :
  keeps n s s' -> j <= n -> trajectory s' j = trajectory s j.
Proof.
  intros (_ & _ & _ & H) Hj. destruct (H j Hj) as (HV & HCa & HT).
  unfold trajectory. now rewrite HV, HCa, HT.
Qed.

Lemma trajectory_Some s i x : trajectory s i = Some x -> length x = 3.
Proof.
  unfold trajectory. intros H.
  destruct (V s !! i), (Ca s !! i), (T s !! i); cbn in H; try discriminate.
  now injection H as <-.
Qed.

Lemma length_3_inv (x : list float) : length x = 3 -> exists a b c, x = [a; b; c].
Proof. destruct x as [|a [|b [|c [|]]]]; try discriminate. eauto. Qed.

Lemma lookup_lt_ex {A : Type} (l : list A) i : i < length l -> exists a, l !! i = Some a.
Proof. intros H. now apply lookup_lt_is_Some_2 in H as [a Ha]; eauto. Qed.

Lemma length_ones_scale n c : length (Np.scale (Np.ones n) c) = n.
Proof. unfold Np.scale, Np.ones. now rewrite length_fmap, length_replicate. Qed.

(** [np.ones(n) * c] holds [c] at every index. *)
Lemma ones_scale_lookup n c i : i < n -> Np.scale (Np.ones n) c !! i = Some c.
Proof.
  intros H. unfold Np.scale, Np.ones.
  rewrite list_lookup_fmap, lookup_replicate_2 by done. cbn.
  now rewrite F64.mul_one_l.
Qed.

Lemma initial_trajectory V0 Ca0 T0 :
  0 < length t -> trajectory (initial_store t V0 Ca0 T0) 0 = Some [V0; Ca0; T0].
Proof.
  intros H. unfold trajectory, initial_store. cbn.
  now rewrite !ones_scale_lookup.
Qed.

Lemma initial_entering V0 Ca0 T0 :
  0 < length t -> starts 0 (initial_store t V0 Ca0 T0).
Proof.
  intros H. unfold entering. rewrite initial_trajectory by done.
  cbn. now rewrite !length_ones_scale.
Qed.

Lemma for_each_app (f : nat -> M unit) l1 l2 s :
  for_each f (l1 ++ l2) s
  = match for_each f l1 s with
    | (s', Ok _) => for_each f l2 s'
    | (s', Raise e) => (s', Raise e)
    end.
Proof.
  revert s. induction l1 as [|i l1 IH]; intros s; cbn; [reflexivity|].
  unfold mbind, M_bind. destruct (f i s) as [s1 [[]|e]]; [apply IH|reflexivity].
Qed.


(** The store the whole run ends in is the one the loop ends in, and its
    outcome is decided by the loop and then by [vstack]. *)
Lemma run_unfold fmt V0 Ca0 T0 :
  run odeint fmt t q qf Caf Tf V0 Ca0 T0
  = match simulate odeint t q qf Caf Tf V0 Ca0 T0 with
    | (s, Ok _) =>
        (s, data ← Np.vstack [t; qf; q; Tf; Caf; V s; Ca s; T s] ;
            Ok (Np.savetxt fmt "," (Np.T data)))
    | (s, Raise e) => (s, Raise e)
    end.
Proof.
  unfold run, simulate, mbind at 1, M_bind at 1.
  destruct (loop _) as [s [[]|e]]; [|reflexivity].
  unfold table, mbind, M_bind, read, lift, mret, M_ret. cbn -[Np.vstack].
  now destruct (Np.vstack _).
Qed.

Section Completes.

Hypothesis Hode : well_shaped odeint.

(** [n] passes from index [a], while the grid and the schedules last. *)
Lemma loop_from n : forall a s,
  starts a s -> a + n + 1 <= length t ->
  a + n <= length q -> a + n <= length qf ->
  a + n <= length Caf -> a + n <= length Tf ->
  exists s',
    for_each pass (seq a n) s = (s', Ok tt)
    /\ starts (a + n) s' /\ keeps a s s'
    /\ forall i, a <= i < a + n -> linked s' i.
Proof using Hode.
  induction n as [|n IH]; intros a s Hent Hle Hq Hqf HCaf HTf.
  - exists s. rewrite Nat.add_0_r.
    split; [reflexivity|]. split; [exact Hent|]. split; [apply keeps_refl|].
    intros i Hi. lia.
  - destruct Hent as (HV & HCa & HT & Htraj & Hcalls).
    destruct (lookup_lt_ex q a) as [qi Hqi]; [lia|].
    destruct (lookup_lt_ex qf a) as [qfi Hqfi]; [lia|].
    destruct (lookup_lt_ex Caf a) as [cafi Hcafi]; [lia|].
    destruct (lookup_lt_ex Tf a) as [tfi Htfi]; [lia|].
    destruct (lookup_lt_ex t a) as [ti Hti]; [lia|].
    destruct (lookup_lt_ex t (a + 1)) as [ti1 Hti1]; [lia|].
    destruct (Hode (y0 s) ti ti1 (qi, qfi, cafi, tfi)) as (rows & row & Hcall & Hrow).
    { eapply trajectory_Some, Htraj. }
    destruct (length_3_inv row Hrow) as (va & vb & vc & ->).
    pose proof (body_ok a s qi qfi cafi tfi ti ti1 rows va vb vc
                  Hqi Hqfi Hcafi Htfi Hti Hti1 Hcall) as Hbody.
    rewrite HV, HCa, HT in Hbody.
    specialize (Hbody ltac:(lia) ltac:(lia) ltac:(lia)).
    set (s1 := {| V := <[a + 1 := va]> (V s); Ca := <[a + 1 := vb]> (Ca s);
                  T := <[a + 1 := vc]> (T s); y0 := [va; vb; vc];
                  calls := S (calls s) |}) in *.
    assert (Hk1 : keeps a s s1) by (eapply body_keeps, Hbody).
    assert (Hent1 : starts (a + 1) s1).
    { unfold entering, trajectory, s1. cbn. rewrite !length_insert.
      rewrite !list_lookup_insert_eq by lia. repeat split; auto; lia. }
    destruct (IH (a + 1) s1 Hent1) as (s' & Hrun & Hent' & Hk' & Hch); [lia..|].
    exists s'. split; [|split; [|split]].
    + cbn. unfold mbind, M_bind. rewrite Hbody.
      replace (S a) with (a + 1) by lia. exact Hrun.
    + now replace (a + S n) with (a + 1 + n) by lia.
    + eapply keeps_trans; [exact Hk1|]. eapply keeps_weaken; [|exact Hk']. lia.
    + intros i Hi. destruct (decide (i = a)) as [->|Hne].
      * exists ti, ti1, qi, qfi, cafi, tfi, (y0 s), (rows ++ [[va; vb; vc]]), [va; vb; vc].
        repeat split; auto.
        -- rewrite (keeps_trajectory _ _ _ _ Hk') by lia.
           now rewrite (keeps_trajectory _ _ _ _ Hk1) by lia.
        -- apply last_snoc.
        -- rewrite (keeps_trajectory _ _ _ _ Hk') by lia. apply Hent1.
      * apply Hch. lia.
Qed.

(** With schedules that cover every pass the loop completes, one
    integrator call per pass, each index chained to the one before. *)
Lemma loop_completes V0 Ca0 T0 :
  length t - 1 <= length q -> length t - 1 <= length qf ->
  length t - 1 <= length Caf -> length t - 1 <= length Tf ->
  exists s,
    simulate odeint t q qf Caf Tf V0 Ca0 T0 = (s, Ok tt)
    /\ keeps 0 (initial_store t V0 Ca0 T0) s
    /\ calls s = length t - 1
    /\ forall i, i + 1 < length t -> linked s i.
Proof using Hode.
  intros Hq Hqf HCaf HTf. unfold simulate, loop.
  destruct (decide (length t = 0)) as [E|E].
  - rewrite E. cbn. eexists. split; [reflexivity|].
    split; [apply keeps_refl|]. split; [reflexivity|]. intros i Hi. lia.
  - destruct (loop_from (length t - 1) 0 (initial_store t V0 Ca0 T0))
      as (s & Hrun & Hent & Hk & Hch); try (cbn; lia).
    { apply initial_entering. lia. }
    exists s. split; [exact Hrun|]. split; [exact Hk|].
    split; [apply Hent|]. intros i Hi. apply Hch. lia.
Qed.


End Completes.

(** C2: for every grid of length N >= 2 and every i from 0 to N-2, the
    driver computes trajectory[i+1] as the last state of the integrator's
    sub-trajectory for the two-point interval [grid[i], grid[i+1]], started
    from trajectory[i] (the initial state when i = 0), with the four inputs
    sampled at index i; only that last state is kept. *)
Theorem loop_chains_last_state V0 Ca0 T0 :
  2 <= length t ->
  length t - 1 <= length q -> length t - 1 <= length qf ->
  length t - 1 <= length Caf -> length t - 1 <= length Tf ->
  well_shaped odeint ->
  exists s,
    simulate odeint t q qf Caf Tf V0 Ca0 T0 = (s, Ok tt)
    /\ trajectory s 0 = Some [V0; Ca0; T0]
    /\ forall i, i + 1 < length t -> chained odeint t q qf Caf Tf s i.
Proof.
  intros HN Hq Hqf HCaf HTf Hode.
  destruct (loop_completes Hode V0 Ca0 T0 Hq Hqf HCaf HTf)
    as (s & Hrun & Hk & _ & Hch).
  exists s. split; [exact Hrun|]. split; [|exact Hch].
  rewrite (keeps_trajectory _ _ _ _ Hk) by lia.
  apply initial_trajectory. lia.
Qed.

(** C3: for every run, whatever the integrator does, the three result
    sequences have the length of the time grid, and index 0 of the
    trajectory is the supplied initial condition itself, which the loop
    never writes. *)
Theorem trajectory_length_and_start fmt V0 Ca0 T0 :
  let s := (run odeint fmt t q qf Caf Tf V0 Ca0 T0).1 in
  (length (V s) = length t /\ length (Ca s) = length t /\
   length (T s) = length t) /\
  (0 < length t -> trajectory s 0 = Some [V0; Ca0; T0]).
Proof.
  intros s.
  assert (Hs : s = (simulate odeint t q qf Caf Tf V0 Ca0 T0).1).
  { unfold s. rewrite run_unfold.
    now destruct (simulate _ _ _ _ _ _ _ _ _) as [s' [[]|e]]. }
  clearbody s. subst s.
  destruct (simulate _ _ _ _ _ _ _ _ _) as [s r] eqn:Hrun. cbn.
  apply for_each_keeps in Hrun.
  split.
  - destruct Hrun as (HV & HCa & HT & _). cbn in HV, HCa, HT.
    now rewrite HV, HCa, HT, !length_ones_scale.
  - intros HN. rewrite (keeps_trajectory _ _ _ _ Hrun) by lia.
    now apply initial_trajectory.
Qed.


End Loop.

(** The Euler stand-in meets what the driver expects of an integrator. *)
Lemma euler_well_shaped : well_shaped euler.
Proof.
  intros y t0 t1 [[[q qf] caf] tf] Hy.
  destruct y as [|a [|b [|c [|]]]]; try discriminate.
  eexists [_], _. split; [reflexivity|reflexivity].
Qed.

Lemma loop_chains_last_state_witness :
  exists s,
    simulate euler [0; 1; 2] [5; 5; 5] [5.2; 5.2; 5.2] [1; 1; 1]
      [300; 300; 300] 1 0 350 = (s, Ok tt)
    /\ trajectory s 0 = Some [1; 0; 350]
    /\ forall i, (i + 1 < 3)%nat ->
         chained euler [0; 1; 2] [5; 5; 5] [5.2; 5.2; 5.2] [1; 1; 1]
           [300; 300; 300] s i.
Proof.
  apply (loop_chains_last_state euler [0; 1; 2] [5; 5; 5] [5.2; 5.2; 5.2]
           [1; 1; 1] [300; 300; 300] 1 0 350);
    cbn; try lia.
  apply euler_well_shaped.
Defined.

Lemma trajectory_length_and_start_witness :
  let s := (run euler Printf.e18 [0; 1; 2] [5; 5; 5] [5.2; 5.2; 5.2] [1; 1; 1]
              [300; 300; 300] 1 0 350).1 in
  (length (V s) = 3%nat /\ length (Ca s) = 3%nat /\ length (T s) = 3%nat) /\
  ((0 < 3)%nat -> trajectory s 0 = Some [1; 0; 350]).
Proof.
  apply (trajectory_length_and_start euler [0; 1; 2] [5; 5; 5] [5.2; 5.2; 5.2]
           [1; 1; 1] [300; 300; 300] Printf.e18 1 0 350).
Defined.



(** ** The saved table *)

Section Lines.

Local Open Scope nat_scope.

Lemma occurs_app c a b : occurs c (a ++ b) = occurs c a || occurs c b.
Proof. induction a as [|x a IH]; cbn; [reflexivity|]. now rewrite IH, orb_assoc. Qed.

Lemma split_on_whole c f : occurs c f = false -> split_on c f = [f].
Proof.
  induction f as [|a f IH]; cbn; [reflexivity|].
  intros [Ha Hf]%orb_false_elim. now rewrite Ha, IH.
Qed.

Lemma split_on_first c f rest :
  occurs c f = false ->
  split_on c (f ++ String c rest) = f :: split_on c rest.
Proof.
  induction f as [|a f IH]; cbn.
  - intros _. now rewrite Ascii.eqb_refl.
  - intros [Ha Hf]%orb_false_elim. now rewrite Ha, IH.
Qed.

(** Splitting a joined line gives the fields back, when no field holds
    the delimiter. *)
Lemma split_on_join c fields :
  fields <> [] -> Forall (fun f => occurs c f = false) fields ->
  split_on c (Np.join (String c EmptyString) fields) = fields.
Proof.
  intros Hne H. induction H as [|f [|g fs] Hf Hfs IH]; [done| |].
  - now apply split_on_whole.
  - change (Np.join (String c EmptyString) (f :: g :: fs))
      with (f ++ String c (Np.join (String c EmptyString) (g :: fs)))%string.
    rewrite split_on_first by done. now rewrite IH.
Qed.

Lemma transpose_length n rows :
  Forall (fun r => length r = n) rows -> length (Np.transpose n rows) = n.
Proof.
  induction 1 as [|r rows Hr _ IH]; cbn.
  - apply length_replicate.
  - rewrite length_zip_with. lia.
Qed.

(** Row [i] of the transpose collects entry [i] of every row. *)
Lemma transpose_lookup n rows i col :
  i < n -> Forall2 (fun r x => r !! i = Some x) rows col ->
  Np.transpose n rows !! i = Some col.
Proof.
  intros Hi. induction 1 as [|r x rows col Hr _ IH]; cbn.
  - now apply lookup_replicate_2.
  - rewrite lookup_zip_with, Hr, IH. reflexivity.
Qed.

Lemma decimal_digits_no_comma u : occurs "," (NilEmpty.string_of_uint u) = false.
Proof. induction u; cbn; auto. Qed.

Lemma decimal_no_comma n : occurs "," (Printf.decimal n) = false.
Proof.
  unfold Printf.decimal, NilZero.string_of_uint.
  destruct (N.to_uint _); auto using decimal_digits_no_comma.
Qed.

Lemma point_after_first_no_comma d :
  occurs "," d = false -> occurs "," (Printf.point_after_first d) = false.
Proof. destruct d as [|c d]; cbn; [done|]. now intros [-> ->]%orb_false_elim. Qed.

(** ['%.18e'] never writes the delimiter. *)
Lemma e18_no_comma x : occurs "," (Printf.e18 x) = false.
Proof.
  unfold Printf.e18.
  destruct (Prim2SF x) as [[]|[]| |s m e]; try reflexivity.
  destruct (0 <=? e)%Z;
    match goal with
    | |- context [if ?b then _ else _] => destruct b
    end;
    rewrite !occurs_app;
    rewrite point_after_first_no_comma by apply decimal_no_comma;
    unfold Printf.exponent_field; rewrite !occurs_app, decimal_no_comma;
    destruct s; repeat match goal with
      | |- context [if ?b then _ else _] => destruct b
      end; reflexivity.
Qed.

Context (odeint : integrator) (fmt : float -> string).
Context (t q qf Caf Tf : list float).

(** C7: the saved table has one line per grid index and no header line;
    line [i] splits at the commas into exactly the 8 columns time, inlet
    flow, outlet flow, feed temperature, feed concentration, volume,
    concentration, temperature of index [i], in that order. *)
Theorem saved_table_shape V0 Ca0 T0 :
  length q = length t -> length qf = length t ->
  length Caf = length t -> length Tf = length t ->
  well_shaped odeint ->
  (forall x, occurs "," (fmt x) = false) ->
  exists s lines,
    run odeint fmt t q qf Caf Tf V0 Ca0 T0 = (s, Ok lines)
    /\ length lines = length t
    /\ forall i, i < length t ->
         exists line columns,
           lines !! i = Some line
           /\ expected_columns fmt t q qf Caf Tf s i = Some columns
           /\ length columns = 8
           /\ line = Np.join "," columns
           /\ split_on "," line = columns.
Proof.
  intros Hq Hqf HCaf HTf Hode Hfmt. rewrite run_unfold.
  destruct (loop_completes odeint t q qf Caf Tf Hode V0 Ca0 T0)
    as (s & -> & Hk & _); try lia.
  destruct Hk as (HV & HCa & HT & _). cbn in HV, HCa, HT.
  rewrite length_ones_scale in HV, HCa, HT.
  unfold Np.vstack. cbn [forallb].
  rewrite Hq, Hqf, HCaf, HTf, HV, HCa, HT, !Nat.eqb_refl. cbn [andb].
  eexists s, _. split; [reflexivity|]. unfold Np.savetxt, Np.T.
  split.
  - rewrite length_fmap. apply transpose_length.
    repeat constructor; auto.
  - intros i Hi.
    destruct (lookup_lt_ex t i) as [ti Hti]; [lia|].
    destruct (lookup_lt_ex qf i) as [qfi Hqfi]; [lia|].
    destruct (lookup_lt_ex q i) as [qi Hqi]; [lia|].
    destruct (lookup_lt_ex Tf i) as [tfi Htfi]; [lia|].
    destruct (lookup_lt_ex Caf i) as [cafi Hcafi]; [lia|].
    destruct (lookup_lt_ex (V s) i) as [v Hv]; [lia|].
    destruct (lookup_lt_ex (Ca s) i) as [c Hc]; [lia|].
    destruct (lookup_lt_ex (T s) i) as [temp Htemp]; [lia|].
    eexists _, _. split; [|split; [|split; [|split; [reflexivity|]]]].
    + rewrite list_lookup_fmap.
      rewrite (transpose_lookup _ _ i [ti; qfi; qi; tfi; cafi; v; c; temp]);
        [reflexivity|lia|].
      repeat constructor; assumption.
    + unfold expected_columns.
      rewrite Hti, Hqfi, Hqi, Htfi, Hcafi, Hv, Hc, Htemp. reflexivity.
    + reflexivity.
    + apply (split_on_join ","); [done|].
      repeat constructor; apply Hfmt.
Qed.

End Lines.

(** The composed run itself, with the Euler stand-in and ['%.18e']. *)
Lemma saved_table_shape_witness :
  exists s lines,
    Script.main euler Printf.e18 = (s, Ok lines)
    /\ length lines = length Script.t
    /\ forall i, (i < length Script.t)%nat ->
         exists line columns,
           lines !! i = Some line
           /\ expected_columns Printf.e18 Script.t Script.q Script.qf
                Script.Caf Script.Tf s i = Some columns
           /\ length columns = 8%nat
           /\ line = Np.join "," columns
           /\ split_on "," line = columns.
Proof.
  apply (saved_table_shape euler Printf.e18 Script.t Script.q Script.qf
           Script.Caf Script.Tf Script.V0 Script.Ca0 Script.T0);
    try reflexivity.
  - apply euler_well_shaped.
  - apply e18_no_comma.
Defined.

Example saved_table_three_point_run :
  (run euler Printf.e18 [0; 1; 2] [5; 5; 5] [5.2; 5.2; 5.2] [1; 1; 1]
     [300; 300; 300] 1 0 350).2
  = Ok ["0.000000000000000000e+00,5.200000000000000178e+00,5.000000000000000000e+00,3.000000000000000000e+02,1.000000000000000000e+00,1.000000000000000000e+00,0.000000000000000000e+00,3.500000000000000000e+02";
        "1.000000000000000000e+00,5.200000000000000178e+00,5.000000000000000000e+00,3.000000000000000000e+02,1.000000000000000000e+00,1.200000000000000178e+00,5.200000000000000178e+00,8.999999999999994316e+01";
        "2.000000000000000000e+00,5.200000000000000178e+00,5.000000000000000000e+00,3.000000000000000000e+02,1.000000000000000000e+00,1.400000000000000355e+00,-1.300000000000000000e+01,1.000000000000000000e+03"]%string.
Proof. vm_compute. reflexivity. Qed.

(** ** The composed run *)

(** C8: the composed run uses a 100-point grid over [0, 10]: it starts at
    0, ends at 10, its entry [i] is [i * (10/99)] for [i < 99], and it is
    strictly increasing; the inlet flow is 5.2 and then 5.1 from index 50,
    the feed concentration 1.0 and then 0.5 from index 30, the feed
    temperature 300 and then 325 from index 70, and the outlet flow 5.0 at
    every index. *)
Theorem script_grid_and_schedules :
  (length Script.t = 100%nat /\ head Script.t = Some 0 /\ last Script.t = Some 10)
  /\ Script.t
     = ((fun i => of_uint63 (Uint63.of_Z (Z.of_nat i)) * (10 / 99)) <$> seq 0 99)
       ++ [10]
  /\ forallb (fun p => (p.1 <? p.2)) (zip Script.t (tail Script.t)) = true
  /\ Script.qf = replicate 50 5.2 ++ replicate 50 5.1
  /\ Script.Caf = replicate 30 1.0 ++ replicate 70 0.5
  /\ Script.Tf = replicate 70 300.0 ++ replicate 30 325.0
  /\ Script.q = replicate 100 5.0
  /\ forall odeint fmt,
       Script.main odeint fmt
       = run odeint fmt Script.t Script.q Script.qf Script.Caf Script.Tf 1.0 0.0 350.0.
Proof.
  split; [|split; [|split; [|split; [|split; [|split; [|split]]]]]].
  - vm_compute. auto.
  - vm_compute. reflexivity.
  - vm_compute. reflexivity.
  - vm_compute. reflexivity.
  - vm_compute. reflexivity.
  - vm_compute. reflexivity.
  - vm_compute. reflexivity.
  - intros odeint fmt. reflexivity.
Qed.

(** The grid of the composed run is strictly increasing. *)
Fact script_grid_increasing :
  forallb (fun p => (p.1 <? p.2)) (zip Script.t (tail Script.t)) = true.
Proof. vm_compute. reflexivity. Qed.

(** ** Further properties of the derivative function *)

(** Every outcome of [vessel], classified: an [IndexError] exactly for a
    state of fewer than three entries; a [ZeroDivisionError] exactly for
    Python floats at a volume equal to zero; otherwise three derivatives.
    It never raises anything else, and entries past the third play no
    part. *)
Theorem vessel_outcome k x t q qf caf tf :
  match vessel k x t q qf caf tf with
  | Raise IndexError => (length x < 3)%nat
  | Raise ZeroDivisionError =>
      (3 <= length x)%nat /\ k = PyFloat
      /\ exists v, x !! 0%nat = Some v /\ (v =? 0) = true
  | Raise ValueError => False
  | Ok ds =>
      length ds = 3%nat /\ ds = Balance.triple_of x q qf caf tf
      /\ (k = NpFloat64 \/ exists v, x !! 0%nat = Some v /\ (v =? 0) = false)
  end.
Proof.
  destruct x as [|V [|Ca [|T rest]]]; try (cbn; lia).
  destruct k.
  - destruct (V =? 0) eqn:HV.
    + replace (vessel _ _ _ _ _ _ _) with (@Raise (list float) ZeroDivisionError)
        by (unfold vessel; cbn; now rewrite HV).
      split; [cbn; lia|]. split; [reflexivity|]. now exists V.
    + replace (vessel _ _ _ _ _ _ _) with (Ok (Balance.triple V Ca T q qf caf tf))
        by (unfold vessel; cbn; now rewrite HV).
      split; [reflexivity|]. split; [reflexivity|]. right. now exists V.
  - cbn. split; [reflexivity|]. split; [reflexivity|]. now left.
Qed.

(** The three balances are decoupled: the volume derivative reads neither
    the concentration, the temperature nor the feeds; the concentration
    derivative reads neither the temperature nor the feed temperature; the
    temperature derivative reads neither the concentration nor the feed
    concentration. *)
Theorem balances_decoupled k V Ca T Ca' T' t t' q qf caf tf caf' tf' :
  component 0 (vessel k [V; Ca; T] t q qf caf tf)
  = component 0 (vessel k [V; Ca'; T'] t' q qf caf' tf')
  /\ component 1 (vessel k [V; Ca; T] t q qf caf tf)
     = component 1 (vessel k [V; Ca; T'] t' q qf caf tf')
  /\ component 2 (vessel k [V; Ca; T] t q qf caf tf)
     = component 2 (vessel k [V; Ca'; T] t' q qf caf' tf).
Proof.
  destruct k; [destruct (V =? 0) eqn:HV|].
  - rewrite !vessel_python_zero by done. auto.
  - rewrite !vessel_nonzero by done. auto.
  - rewrite !vessel_numpy. auto.
Qed.

(** ** Further properties of the stepping loop *)

Section LoopFacts.

Local Open Scope nat_scope.

Context (odeint : integrator) (t q qf Caf Tf : list float).

Local Abbreviation pass := (body odeint t q qf Caf Tf).

Lemma run_store fmt V0 Ca0 T0 :
  (run odeint fmt t q qf Caf Tf V0 Ca0 T0).1
  = (simulate odeint t q qf Caf Tf V0 Ca0 T0).1.
Proof.
  rewrite run_unfold.
  now destruct (simulate _ _ _ _ _ _ _ _ _) as [s' [[]|e]].
Qed.

Lemma for_each_ext (f g : nat -> M unit) l :
  Forall (fun i => forall s, f i s = g i s) l ->
  forall s, for_each f l s = for_each g l s.
Proof.
  induction 1 as [|i l Hi _ IH]; intros s; cbn; [reflexivity|].
  unfold mbind, M_bind. rewrite Hi.
  destruct (g i s) as [s1 [[]|e]]; [apply IH|reflexivity].
Qed.

(** A pass reads its schedules at its own index only. *)
Lemma body_agree q' qf' Caf' Tf' i s :
  q !! i = q' !! i -> qf !! i = qf' !! i ->
  Caf !! i = Caf' !! i -> Tf !! i = Tf' !! i ->
  pass i s = body odeint t q' qf' Caf' Tf' i s.
Proof. unfold body, getitem. now intros -> -> -> ->. Qed.

(** The loop reads the schedules at indices [0 .. len(t)-2] only: the last
    sample of each boundary input, and anything after it, has no effect on
    the trajectory, on the outcome or on the number of integrator calls. *)
Theorem trailing_samples_unused q' qf' Caf' Tf' V0 Ca0 T0 :
  take (length t - 1) q = take (length t - 1) q' ->
  take (length t - 1) qf = take (length t - 1) qf' ->
  take (length t - 1) Caf = take (length t - 1) Caf' ->
  take (length t - 1) Tf = take (length t - 1) Tf' ->
  simulate odeint t q qf Caf Tf V0 Ca0 T0
  = simulate odeint t q' qf' Caf' Tf' V0 Ca0 T0.
Proof.
  intros Hq Hqf HCaf HTf. unfold simulate, loop.
  apply for_each_ext. apply Forall_forall. intros i Hi s.
  apply elem_of_seq in Hi.
  assert (Hlook : forall l l' : list float,
             take (length t - 1) l = take (length t - 1) l' -> l !! i = l' !! i).
  { intros l l' H.
    rewrite <- (lookup_take_lt l (length t - 1) i) by lia.
    rewrite <- (lookup_take_lt l' (length t - 1) i) by lia.
    now rewrite H. }
  apply body_agree; auto.
Qed.

(** What a pass may change, whatever its outcome: nothing at all when it
    raises before calling the integrator; otherwise the call is counted and
    only index [i+1] of the result arrays may differ. *)
Lemma body_frame i s s' r :
  pass i s = (s', r) ->
  (r = Ok tt -> calls s' = S (calls s)) /\
  ((calls s' = calls s /\ V s' = V s /\ Ca s' = Ca s /\ T s' = T s) \/
   (calls s' = S (calls s) /\
    forall j, j <> i + 1 ->
      V s' !! j = V s !! j /\ Ca s' !! j = Ca s !! j /\ T s' !! j = T s !! j)).
Proof.
  intros H.
  unfold body, mbind, M_bind, lift, read, write in H.
  cbn -[vessel] in H.
  repeat match type of H with
    | context [match ?x with Ok _ => _ | Raise _ => _ end] =>
        destruct x eqn:?; cbn -[vessel] in H
    end;
    injection H as <- <-;
    repeat match goal with
      | E : Np.setitem _ _ _ = Ok _ |- _ =>
          apply setitem_Ok in E; destruct E as [? ->]
      end;
    (split; [try discriminate; reflexivity|]);
    first [ left; done
          | right; cbn; split; [reflexivity|];
            intros j Hj; repeat split;
            first [reflexivity | apply list_lookup_insert_ne; lia] ].
Qed.

Lemma for_each_untouched n : forall a s s' r,
  for_each pass (seq a n) s = (s', r) -> calls s = a ->
  a <= calls s' <= a + n /\
  (r = Ok tt -> calls s' = a + n) /\
  forall j, calls s' < j ->
    V s' !! j = V s !! j /\ Ca s' !! j = Ca s !! j /\ T s' !! j = T s !! j.
Proof.
  induction n as [|n IH]; intros a s s' r H Ha; cbn in H.
  - injection H as <- <-. repeat split; auto; lia.
  - unfold mbind, M_bind in H.
    destruct (pass a s) as [s1 [[]|e]] eqn:Hb; apply body_frame in Hb;
      destruct Hb as [Hok Hb].
    + specialize (Hok eq_refl).
      destruct (IH (S a) s1 s' r H) as (Hc & Hr & Hj); [lia|].
      split; [lia|]. split; [intros E; rewrite (Hr E); lia|].
      intros j Hlt. destruct (Hj j Hlt) as (-> & -> & ->).
      destruct Hb as [(Hc1 & _)|(_ & Hb)]; [lia|]. apply Hb. lia.
    + injection H as <- <-.
      destruct Hb as [(Hc1 & -> & -> & ->)|(Hc1 & Hb)].
      * repeat split; auto; try lia. discriminate.
      * split; [lia|]. split; [discriminate|].
        intros j Hlt. apply Hb. lia.
Qed.

(** However a run ends, the entries of the trajectory past the number of
    integrator calls made still hold the initial condition the arrays were
    filled with: an aborted run leaves no undefined or zero entries. *)
Theorem untouched_entries_keep_initial_condition fmt V0 Ca0 T0 j :
  let s := (run odeint fmt t q qf Caf Tf V0 Ca0 T0).1 in
  calls s < j -> j < length t ->
  trajectory s j = Some [V0; Ca0; T0].
Proof.
  intros s. unfold s. rewrite run_store. clear s.
  destruct (simulate _ _ _ _ _ _ _ _ _) as [s r] eqn:Hrun. cbn.
  intros Hlt Hj.
  apply for_each_untouched in Hrun as (_ & _ & Hrun); [|reflexivity].
  destruct (Hrun j Hlt) as (HV & HCa & HT).
  unfold trajectory. rewrite HV, HCa, HT. cbn.
  now rewrite !ones_scale_lookup.
Qed.

(** The integrator is called once per grid interval, never more: a run
    makes at most [len(t)-1] calls, and exactly that many when the loop
    completes. *)
Theorem one_call_per_interval V0 Ca0 T0 :
  let '(s, r) := simulate odeint t q qf Caf Tf V0 Ca0 T0 in
  calls s <= length t - 1 /\ (r = Ok tt -> calls s = length t - 1).
Proof.
  destruct (simulate _ _ _ _ _ _ _ _ _) as [s r] eqn:Hrun.
  apply for_each_untouched in Hrun as (Hc & Hr & _); [|reflexivity].
  split; [lia|]. intros E. now rewrite (Hr E).
Qed.

(** A grid of fewer than two points integrates nothing: whatever the
    schedules (even empty ones) and the integrator, the loop completes at
    once on the arrays filled with the initial condition. *)
Theorem short_grid_integrates_nothing V0 Ca0 T0 :
  length t <= 1 ->
  simulate odeint t q qf Caf Tf V0 Ca0 T0 = (initial_store t V0 Ca0 T0, Ok tt).
Proof.
  intros H. unfold simulate, loop.
  now replace (length t - 1) with 0 by lia.
Qed.

End LoopFacts.

Section RunFacts.

Local Open Scope nat_scope.

Context (odeint : integrator) (fmt : float -> string).
Context (t q qf Caf Tf : list float).

Local Abbreviation pass := (body odeint t q qf Caf Tf).

(** A pass whose integrator call raises stops there: the call is counted
    and nothing is stored. *)
Lemma body_integrator_raises i s e qi qfi cafi tfi ti ti1 :
  q !! i = Some qi -> qf !! i = Some qfi ->
  Caf !! i = Some cafi -> Tf !! i = Some tfi ->
  t !! i = Some ti -> t !! (i + 1) = Some ti1 ->
  odeint (vessel NpFloat64) (y0 s) [ti; ti1] (qi, qfi, cafi, tfi) = Raise e ->
  pass i s = (count_call s, Raise e).
Proof.
  intros Hq Hqf HCaf HTf Ht Ht1 Hode. unfold body.
  rewrite (getitem_Some _ _ _ Hq), (getitem_Some _ _ _ Hqf),
    (getitem_Some _ _ _ HCaf), (getitem_Some _ _ _ HTf),
    (getitem_Some _ _ _ Ht), (getitem_Some _ _ _ Ht1).
  unfold mbind, M_bind, lift, read, write. cbn -[vessel].
  now rewrite Hode.
Qed.

(** An exception of the integrator is the exception of the run: if the
    first [m] passes complete and the integrator raises [e] in pass [m],
    the run raises [e] with the store as those passes left it (the failed
    call counted), and no table is built. *)
Theorem integrator_exception_aborts V0 Ca0 T0 m s e qi qfi cafi tfi ti ti1 :
  for_each pass (seq 0 m) (initial_store t V0 Ca0 T0) = (s, Ok tt) ->
  q !! m = Some qi -> qf !! m = Some qfi ->
  Caf !! m = Some cafi -> Tf !! m = Some tfi ->
  t !! m = Some ti -> t !! (m + 1) = Some ti1 ->
  odeint (vessel NpFloat64) (y0 s) [ti; ti1] (qi, qfi, cafi, tfi) = Raise e ->
  run odeint fmt t q qf Caf Tf V0 Ca0 T0 = (count_call s, Raise e).
Proof.
  intros Hpre Hq Hqf HCaf HTf Ht Ht1 Hode.
  pose proof (lookup_lt_Some _ _ _ Ht1) as Hlt.
  rewrite run_unfold. unfold simulate, loop.
  replace (length t - 1) with (m + S (length t - 2 - m)) by lia.
  rewrite seq_app, for_each_app, Hpre. cbn [seq for_each Nat.add].
  unfold mbind at 1, M_bind at 1.
  now rewrite (body_integrator_raises m s e qi qfi cafi tfi ti ti1).
Qed.

(** When the run returns lines, the loop has completed, every schedule has
    the grid's length, and the lines are those of the transposed stack. *)
Lemma run_Ok_inv V0 Ca0 T0 s lines :
  run odeint fmt t q qf Caf Tf V0 Ca0 T0 = (s, Ok lines) ->
  simulate odeint t q qf Caf Tf V0 Ca0 T0 = (s, Ok tt)
  /\ (length q = length t /\ length qf = length t /\
      length Caf = length t /\ length Tf = length t)
  /\ lines = Np.savetxt fmt ","
               (Np.transpose (length t) [t; qf; q; Tf; Caf; V s; Ca s; T s]).
Proof.
  rewrite run_unfold.
  destruct (simulate _ _ _ _ _ _ _ _ _) as [s' [[]|e]]; [|discriminate].
  unfold Np.vstack. cbn [forallb].
  destruct (Nat.eqb_spec (length qf) (length t)); [|discriminate].
  destruct (Nat.eqb_spec (length q) (length t)); [|discriminate].
  destruct (Nat.eqb_spec (length Tf) (length t)); [|discriminate].
  destruct (Nat.eqb_spec (length Caf) (length t)); [|discriminate].
  destruct (_ && _); [|discriminate].
  cbn. intros H. injection H as <- <-. auto 10.
Qed.

Lemma table_lines s :
  length q = length t -> length qf = length t ->
  length Caf = length t -> length Tf = length t ->
  length (V s) = length t -> length (Ca s) = length t ->
  length (T s) = length t ->
  let lines := Np.savetxt fmt ","
                 (Np.transpose (length t) [t; qf; q; Tf; Caf; V s; Ca s; T s]) in
  length lines = length t /\
  forall i, i < length t ->
    exists columns,
      expected_columns fmt t q qf Caf Tf s i = Some columns
      /\ length columns = 8
      /\ lines !! i = Some (Np.join "," columns).
Proof.
  intros Hq Hqf HCaf HTf HV HCa HT lines. unfold lines, Np.savetxt. split.
  - rewrite length_fmap. apply transpose_length. repeat constructor; auto.
  - intros i Hi.
    destruct (lookup_lt_ex t i) as [ti Hti]; [lia|].
    destruct (lookup_lt_ex qf i) as [qfi Hqfi]; [lia|].
    destruct (lookup_lt_ex q i) as [qi Hqi]; [lia|].
    destruct (lookup_lt_ex Tf i) as [tfi Htfi]; [lia|].
    destruct (lookup_lt_ex Caf i) as [cafi Hcafi]; [lia|].
    destruct (lookup_lt_ex (V s) i) as [v Hv]; [lia|].
    destruct (lookup_lt_ex (Ca s) i) as [c Hc]; [lia|].
    destruct (lookup_lt_ex (T s) i) as [temp Htemp]; [lia|].
    eexists. split; [|split].
    + unfold expected_columns.
      rewrite Hti, Hqfi, Hqi, Htfi, Hcafi, Hv, Hc, Htemp. reflexivity.
    + reflexivity.
    + rewrite list_lookup_fmap.
      rewrite (transpose_lookup _ _ i [ti; qfi; qi; tfi; cafi; v; c; temp]);
        [reflexivity|lia|].
      repeat constructor; assumption.
Qed.

Lemma simulate_lengths V0 Ca0 T0 s r :
  simulate odeint t q qf Caf Tf V0 Ca0 T0 = (s, r) ->
  keeps 0 (initial_store t V0 Ca0 T0) s
  /\ length (V s) = length t /\ length (Ca s) = length t
  /\ length (T s) = length t.
Proof.
  intros H. apply for_each_keeps in H. split; [exact H|].
  destruct H as (HV & HCa & HT & _). cbn in HV, HCa, HT.
  now rewrite HV, HCa, HT, !length_ones_scale.
Qed.

(** No table is ever saved out of step: whatever the integrator, if the
    run returns lines then all four schedules have the grid's length, there
    is one line per grid index, and line [i] joins the 8 formatted columns
    of index [i]. *)
Theorem saved_table_is_aligned V0 Ca0 T0 s lines :
  run odeint fmt t q qf Caf Tf V0 Ca0 T0 = (s, Ok lines) ->
  (length q = length t /\ length qf = length t /\
   length Caf = length t /\ length Tf = length t)
  /\ length lines = length t
  /\ forall i, i < length t ->
       exists columns,
         expected_columns fmt t q qf Caf Tf s i = Some columns
         /\ length columns = 8
         /\ lines !! i = Some (Np.join "," columns).
Proof.
  intros H. apply run_Ok_inv in H as (Hsim & Hlen & ->).
  apply simulate_lengths in Hsim as (_ & HV & HCa & HT).
  split; [exact Hlen|].
  destruct Hlen as (Hq & Hqf & HCaf & HTf).
  now apply table_lines.
Qed.

(** The first saved line carries the initial condition itself: its last
    three columns are the formatted [V0], [Ca0], [T0], after the time and
    the four inputs at index 0. *)
Theorem first_line_is_initial_condition V0 Ca0 T0 s lines :
  run odeint fmt t q qf Caf Tf V0 Ca0 T0 = (s, Ok lines) ->
  0 < length t ->
  exists t0 qf0 q0 Tf0 Caf0,
    t !! 0 = Some t0 /\ qf !! 0 = Some qf0 /\ q !! 0 = Some q0
    /\ Tf !! 0 = Some Tf0 /\ Caf !! 0 = Some Caf0
    /\ lines !! 0
       = Some (Np.join "," (fmt <$> [t0; qf0; q0; Tf0; Caf0; V0; Ca0; T0])).
Proof.
  intros H HN. apply run_Ok_inv in H as (Hsim & (Hq & Hqf & HCaf & HTf) & ->).
  apply simulate_lengths in Hsim as (Hk & HV & HCa & HT).
  pose proof (keeps_trajectory _ _ _ 0 Hk (le_n 0)) as Htraj.
  rewrite (initial_trajectory t V0 Ca0 T0 HN) in Htraj.
  destruct (table_lines s Hq Hqf HCaf HTf HV HCa HT) as (_ & Hlines).
  destruct (Hlines 0 HN) as (columns & Hcol & _ & ->).
  unfold expected_columns in Hcol. unfold trajectory in Htraj.
  destruct (t !! 0) as [t0|]; [|discriminate].
  destruct (qf !! 0) as [qf0|]; [|discriminate].
  destruct (q !! 0) as [q0|]; [|discriminate].
  destruct (Tf !! 0) as [Tf0|]; [|discriminate].
  destruct (Caf !! 0) as [Caf0|]; [|discriminate].
  destruct (V s !! 0) as [v|]; [|discriminate].
  destruct (Ca s !! 0) as [c|]; [|discriminate].
  destruct (T s !! 0) as [temp|]; [|discriminate].
  cbn in Hcol, Htraj. injection Htraj as -> -> ->. injection Hcol as <-.
  exists t0, qf0, q0, Tf0, Caf0. auto 10.
Qed.

End RunFacts.

(** ** Further properties of the schedules *)

(** The construction of a schedule, [np.ones(n) * b] followed by
    [a[k:] = c], gives one step: [b] at the indices below [k] and [c] from
    [k] on, [n] entries in all; with [k] past the end the baseline is left
    as it is. *)
Theorem step_schedule n k b c :
  Np.assign_from k c (Np.scale (Np.ones n) b)
  = replicate (k `min` n) b ++ replicate (n - k) c.
Proof.
  unfold Np.assign_from, Np.scale, Np.ones.
  rewrite fmap_replicate, F64.mul_one_l, take_replicate, length_replicate.
  reflexivity.
Qed.

(** ** The running state *)

(** On a completed run the running initial condition [y0] is the last
    entry of the trajectory: the state handed to the next pass is always
    the one just stored. *)
Theorem final_state_is_last_entry odeint t q qf Caf Tf V0 Ca0 T0 :
  well_shaped odeint ->
  (0 < length t)%nat ->
  (length t - 1 <= length q)%nat -> (length t - 1 <= length qf)%nat ->
  (length t - 1 <= length Caf)%nat -> (length t - 1 <= length Tf)%nat ->
  exists s,
    simulate odeint t q qf Caf Tf V0 Ca0 T0 = (s, Ok tt)
    /\ trajectory s (length t - 1) = Some (y0 s).
Proof.
  intros Hode HN Hq Hqf HCaf HTf. unfold simulate, loop.
  destruct (loop_from odeint t q qf Caf Tf Hode (length t - 1) 0
              (initial_store t V0 Ca0 T0))
    as (s & Hrun & Hent & _); try (cbn; lia).
  { now apply initial_entering. }
  exists s. split; [exact Hrun|]. apply Hent.
Qed.

(** ** Runs on concrete grids *)

Lemma final_state_is_last_entry_witness :
  exists s,
    simulate euler [0; 1; 2] [5; 5; 5] [5.2; 5.2; 5.2] [1; 1; 1]
      [300; 300; 300] 1 0 350 = (s, Ok tt)
    /\ trajectory s 2 = Some (y0 s).
Proof.
  apply (final_state_is_last_entry euler [0; 1; 2] [5; 5; 5] [5.2; 5.2; 5.2]
           [1; 1; 1] [300; 300; 300] 1 0 350);
    cbn; try lia.
  apply euler_well_shaped.
Defined.

(** Changing the last sample of the outlet flow, and appending to it,
    changes nothing in the loop. *)
Lemma trailing_samples_unused_witness :
  simulate euler [0; 1; 2] [5; 5; 5] [5.2; 5.2; 5.2] [1; 1; 1]
    [300; 300; 300] 1 0 350
  = simulate euler [0; 1; 2] [5; 5; 99; 7] [5.2; 5.2; 0] [1; 1]
      [300; 300; 300] 1 0 350.
Proof.
  apply (trailing_samples_unused euler [0; 1; 2] [5; 5; 5] [5.2; 5.2; 5.2]
           [1; 1; 1] [300; 300; 300] [5; 5; 99; 7] [5.2; 5.2; 0] [1; 1]
           [300; 300; 300] 1 0 350);
    reflexivity.
Defined.

(** An outlet flow above the inlet flow empties the vessel in the first
    step; the second step divides by the zero volume, the checked
    integrator raises, and the entries at indices 2 and 3 still hold the
    initial condition. *)
Lemma untouched_entries_keep_initial_condition_witness :
  let s := (run checked_euler Printf.e18 [0; 1; 2; 3] [6; 6; 6; 6]
              [5; 5; 5; 5] [1; 1; 1; 1] [300; 300; 300; 300] 1 0 350).1 in
  calls s = 2%nat /\ trajectory s 3 = Some [1; 0; 350].
Proof.
  split; [reflexivity|].
  apply (untouched_entries_keep_initial_condition checked_euler [0; 1; 2; 3]
           [6; 6; 6; 6] [5; 5; 5; 5] [1; 1; 1; 1] [300; 300; 300; 300]
           Printf.e18 1 0 350 3);
    vm_compute; lia.
Defined.

Lemma integrator_exception_aborts_witness :
  run checked_euler Printf.e18 [0; 1; 2; 3] [6; 6; 6; 6] [5; 5; 5; 5]
    [1; 1; 1; 1] [300; 300; 300; 300] 1 0 350
  = ({| V := [1; 0; 1; 1]; Ca := [0; 5; 0; 0]; T := [350; 100; 350; 350];
        y0 := [0; 5; 100]; calls := 2 |}, Raise ValueError).
Proof.
  apply (integrator_exception_aborts checked_euler Printf.e18 [0; 1; 2; 3]
           [6; 6; 6; 6] [5; 5; 5; 5] [1; 1; 1; 1] [300; 300; 300; 300] 1 0 350
           1 {| V := [1; 0; 1; 1]; Ca := [0; 5; 0; 0]; T := [350; 100; 350; 350];
                y0 := [0; 5; 100]; calls := 1 |}
           ValueError 6 5 1 300 1 2);
    reflexivity.
Defined.

Lemma short_grid_integrates_nothing_witness :
  simulate euler [0] [] [] [] [] 1 0 350
  = (initial_store [0] 1 0 350, Ok tt).
Proof.
  apply (short_grid_integrates_nothing euler [0] [] [] [] [] 1 0 350).
  cbn. lia.
Defined.

Lemma saved_table_is_aligned_witness :
  let r := run euler Printf.e18 [0; 1] [5; 5] [5.2; 5.2] [1; 1] [300; 300]
             1 0 350 in
  let lines := match r.2 with Ok l => l | Raise _ => [] end in
  r = (r.1, Ok lines)
  /\ length lines = 2%nat
  /\ forall i, (i < 2)%nat ->
       exists columns,
         expected_columns Printf.e18 [0; 1] [5; 5] [5.2; 5.2] [1; 1]
           [300; 300] r.1 i = Some columns
         /\ length columns = 8%nat
         /\ lines !! i = Some (Np.join "," columns).
Proof.
  assert (H : let r := run euler Printf.e18 [0; 1] [5; 5] [5.2; 5.2] [1; 1]
                         [300; 300] 1 0 350 in
              r = (r.1, Ok match r.2 with Ok l => l | Raise _ => [] end))
    by (vm_compute; reflexivity).
  split; [exact H|].
  apply (saved_table_is_aligned euler Printf.e18 [0; 1] [5; 5] [5.2; 5.2]
           [1; 1] [300; 300] 1 0 350 _ _ H).
Defined.

Lemma first_line_is_initial_condition_witness :
  let r := run euler Printf.e18 [0; 1] [5; 5] [5.2; 5.2] [1; 1] [300; 300]
             1 0 350 in
  let lines := match r.2 with Ok l => l | Raise _ => [] end in
  exists t0 qf0 q0 Tf0 Caf0,
    [0; 1] !! 0%nat = Some t0 /\ [5.2; 5.2] !! 0%nat = Some qf0
    /\ [5; 5] !! 0%nat = Some q0
    /\ [300; 300] !! 0%nat = Some Tf0 /\ [1; 1] !! 0%nat = Some Caf0
    /\ lines !! 0%nat
       = Some (Np.join "," (Printf.e18 <$> [t0; qf0; q0; Tf0; Caf0; 1; 0; 350])).
Proof.
  apply (first_line_is_initial_condition euler Printf.e18 [0; 1] [5; 5]
           [5.2; 5.2] [1; 1] [300; 300] 1 0 350
           (run euler Printf.e18 [0; 1] [5; 5] [5.2; 5.2] [1; 1] [300; 300]
              1 0 350).1).
  - vm_compute. reflexivity.
  - cbn. lia.
Defined.
